(** * invest-api: the [domain] package's user value objects

    A shallow embedding of [package domain] (type [User] and the value
    objects [UserID], [UserName], [HashedPassword], [UserRole] and
    [Password]) together with the parts of the Go runtime and of the
    libraries [regexp] and [github.com/pkg/errors] that the package's
    constructors rely on.

    Conventions.
    - A Go [string] is a sequence of bytes: [String.string].
    - A [rune] is an [int32] code point: [Z].
    - A [uint64] is an [N]; the package never does arithmetic on it.
    - A Go function returning [(T, error)] returns a pair
      [T * option error], [None] being [nil]; a [*User] result is an
      [option User], [None] being the [nil] pointer. *)

From Stdlib Require Import List String Ascii ZArith NArith Bool Lia.
Import ListNotations.

Local Open Scope string_scope.

(** ** Errors: [github.com/pkg/errors] and the package's error variables *)

Module Errors.

(** The package-level error variables.  In Go they are compared by
    identity, so each one is a constructor of its own. *)
Inductive ErrVar : Set :=
| ErrUserIDZero
| ErrUserNameEmpty
| ErrUserNameTooLong
| ErrHashedPasswordEmpty
| ErrHashedPasswordNotMatch
| ErrUserRoleInvalid
| ErrPasswordEmpty
| ErrPasswordTooShort
| ErrPasswordTooLong
| ErrPasswordDoesNotFollowRule.

Definition ErrVar_eqb (a b : ErrVar) : bool :=
  match a, b with
  | ErrUserIDZero, ErrUserIDZero
  | ErrUserNameEmpty, ErrUserNameEmpty
  | ErrUserNameTooLong, ErrUserNameTooLong
  | ErrHashedPasswordEmpty, ErrHashedPasswordEmpty
  | ErrHashedPasswordNotMatch, ErrHashedPasswordNotMatch
  | ErrUserRoleInvalid, ErrUserRoleInvalid
  | ErrPasswordEmpty, ErrPasswordEmpty
  | ErrPasswordTooShort, ErrPasswordTooShort
  | ErrPasswordTooLong, ErrPasswordTooLong
  | ErrPasswordDoesNotFollowRule, ErrPasswordDoesNotFollowRule => true
  | _, _ => false
  end.

(** An error value.  [withStack] and [withMessage] are the two wrappers
    of pkg/errors; the recorded call stack carries no behaviour and is
    left out.  [foreign] is an error made by another library, known
    here by its message only. *)
Inductive error : Set :=
| errVar (e : ErrVar)
| withStack (err : error)
| withMessage (cause : error) (msg : string)
| foreign (msg : string).

(** [errors.WithStack(err)], at a non-nil [err]. *)
Definition WithStack (err : error) : error := withStack err.

(** [errors.Wrap(err, message)], at a non-nil [err]. *)
Definition Wrap (err : error) (message : string) : error :=
  withStack (withMessage err message).

(** The texts given to [errors.New] and [fmt.Errorf], the constants
    [UserNameMaxLength], [PasswordMinLength] and [PasswordMaxLength]
    already formatted in. *)
Definition message (e : ErrVar) : string :=
  match e with
  | ErrUserIDZero => "user id: must not be zero"
  | ErrUserNameEmpty => "user name: must not be empty"
  | ErrUserNameTooLong => "user name: must not be longer than 32 characters"
  | ErrHashedPasswordEmpty => "hashed password: must not be empty"
  | ErrHashedPasswordNotMatch => "hashed password: not match"
  | ErrUserRoleInvalid => "user role: invalid type"
  | ErrPasswordEmpty => "password: must not be empty"
  | ErrPasswordTooShort => "password: must be at least 8 characters"
  | ErrPasswordTooLong => "password: must be at shorter than 16 characters"
  | ErrPasswordDoesNotFollowRule => "password: does not follow the rules"
  end.

(** The method [Error()]. *)
Fixpoint Error (err : error) : string :=
  match err with
  | errVar e => message e
  | withStack e => Error e
  | withMessage c msg => msg ++ ": " ++ Error c
  | foreign msg => msg
  end.

(** [errors.Is(err, target)] for a target that is one of the error
    variables: walk the [Unwrap] chain and compare by identity. *)
Fixpoint Is (err : error) (target : ErrVar) : bool :=
  match err with
  | errVar e => ErrVar_eqb e target
  | withStack e => Is e target
  | withMessage c _ => Is c target
  | foreign _ => false
  end.

(** [errors.Cause(err)]: the innermost error of the chain. *)
Fixpoint Cause (err : error) : error :=
  match err with
  | withStack e => Cause e
  | withMessage c _ => Cause c
  | _ => err
  end.

End Errors.
Import Errors.

(** ** Go strings, bytes and runes *)

Module Utf8.

Local Open Scope Z_scope.

Definition rune : Set := Z.

(** The value of a byte of a string, [s[i]]. *)
Definition byteval (c : ascii) : Z := Z.of_N (N_of_ascii c).

(** Constants of [runtime/utf8.go]. *)
Definition runeError : rune := 0xFFFD.
Definition runeSelf : Z := 0x80.
Definition maxRune : rune := 0x10FFFF.
Definition surrogateMin : rune := 0xD800.
Definition surrogateMax : rune := 0xDFFF.

Definition t2 : Z := 0xC0.
Definition t3 : Z := 0xE0.
Definition t4 : Z := 0xF0.
Definition t5 : Z := 0xF8.

Definition maskx : Z := 0x3F.
Definition mask2 : Z := 0x1F.
Definition mask3 : Z := 0x0F.
Definition mask4 : Z := 0x07.

Definition rune1Max : rune := 0x7F.
Definition rune2Max : rune := 0x7FF.
Definition rune3Max : rune := 0xFFFF.

Definition locb : Z := 0x80.
Definition hicb : Z := 0xBF.

Definition cont (b : Z) : bool := (locb <=? b) && (b <=? hicb).

(** [decoderune(s, k)] of the runtime, on the suffix [s[k:]] (never
    empty where the runtime calls it): the rune that starts there and
    the number of bytes it takes.  A byte sequence that is no valid
    encoding gives [runeError] and takes one byte. *)
Definition decoderune (s : string) : rune * nat :=
  match s with
  | String c0 (String c1 s2) =>
      let b0 := byteval c0 in
      let b1 := byteval c1 in
      if (t2 <=? b0) && (b0 <? t3) then
        if cont b1 then
          let r := Z.lor (Z.shiftl (Z.land b0 mask2) 6) (Z.land b1 maskx) in
          if (rune1Max <? r) then (r, 2%nat) else (runeError, 1%nat)
        else (runeError, 1%nat)
      else if (t3 <=? b0) && (b0 <? t4) then
        match s2 with
        | String c2 _ =>
            let b2 := byteval c2 in
            if cont b1 && cont b2 then
              let r := Z.lor (Z.lor (Z.shiftl (Z.land b0 mask3) 12)
                                    (Z.shiftl (Z.land b1 maskx) 6))
                             (Z.land b2 maskx) in
              if (rune2Max <? r)
                 && negb ((surrogateMin <=? r) && (r <=? surrogateMax))
              then (r, 3%nat) else (runeError, 1%nat)
            else (runeError, 1%nat)
        | EmptyString => (runeError, 1%nat)
        end
      else if (t4 <=? b0) && (b0 <? t5) then
        match s2 with
        | String c2 (String c3 _) =>
            let b2 := byteval c2 in
            let b3 := byteval c3 in
            if cont b1 && cont b2 && cont b3 then
              let r := Z.lor (Z.lor (Z.lor (Z.shiftl (Z.land b0 mask4) 18)
                                           (Z.shiftl (Z.land b1 maskx) 12))
                                    (Z.shiftl (Z.land b2 maskx) 6))
                             (Z.land b3 maskx) in
              if (rune3Max <? r) && (r <=? maxRune)
              then (r, 4%nat) else (runeError, 1%nat)
            else (runeError, 1%nat)
        | _ => (runeError, 1%nat)
        end
      else (runeError, 1%nat)
  | _ => (runeError, 1%nat)
  end.

(** One step of [for range s]: a byte below [runeSelf] is its own rune,
    any other byte starts a [decoderune]. *)
Definition step (s : string) : rune * nat :=
  match s with
  | EmptyString => (runeError, 1%nat)
  | String c0 _ =>
      if (byteval c0 <? runeSelf) then (byteval c0, 1%nat) else decoderune s
  end.

(** [for _, r := range s]: the runes of [s], each with the number of
    bytes it takes.  The loop index moves on by that number; [skip]
    counts the bytes of the current rune still to pass over. *)
Fixpoint rangeFrom (skip : nat) (s : string) : list (rune * nat) :=
  match s with
  | EmptyString => []
  | String _ t =>
      match skip with
      | S k => rangeFrom k t
      | O => let rw := step s in rw :: rangeFrom (snd rw - 1)%nat t
      end
  end.

Definition range (s : string) : list (rune * nat) := rangeFrom 0%nat s.

(** The conversion [[]rune(s)]. *)
Definition runes (s : string) : list rune := map fst (range s).

(** [len([]rune(s))], the number of code points of [s]. *)
Definition runeCount (s : string) : nat := List.length (runes s).

(** The number of bytes that a list of runes takes. *)
Definition widths (l : list (rune * nat)) : nat :=
  fold_right (fun rw acc => (snd rw + acc)%nat) 0%nat l.

End Utf8.
Import Utf8.

(** ** The fragment of Go's [regexp] that the package's patterns use *)

Module Regexp.

Local Open Scope Z_scope.
Local Open Scope list_scope.

(** The syntax tree of a pattern, with the operators of
    [regexp/syntax] that occur in the package: a character class given
    by its ranges, [+], concatenation, and the anchors [^] and [$],
    which without the multi-line flag are begin-of-text and
    end-of-text. *)
Inductive Regexp : Set :=
| OpCharClass (ranges : list (rune * rune))
| OpPlus (sub : Regexp)
| OpConcat (sub1 sub2 : Regexp)
| OpBeginText
| OpEndText.

(** Whether a rune lies in one of the ranges of a class. *)
Definition inClass (ranges : list (rune * rune)) (r : rune) : bool :=
  existsb (fun lh => (fst lh <=? r) && (r <=? snd lh)) ranges.

(** A thread of the matcher: the byte offset reached in the text and
    the runes from there on, each with its width in bytes. *)
Definition thread : Set := (nat * list (rune * nat))%type.

(** The iteration of [+]: one more pass of [body] is tried first
    (greedy) and only from a thread that moved forward, then the thread
    is handed on.  Every pass consumes input, so a fuel of one more
    than the number of runes left is never used up. *)
Fixpoint plusLoop (body : thread -> list thread) (fuel : nat) (th : thread)
  : list thread :=
  match fuel with
  | O => []
  | S fuel' =>
      flat_map
        (fun th' =>
           (if (List.length (snd th') <? List.length (snd th))%nat
            then plusLoop body fuel' th' else []) ++ [th'])
        (body th)
  end.

(** All the threads that [re] leaves behind when it is matched at
    [th], in order of preference. *)
Fixpoint run (re : Regexp) (th : thread) : list thread :=
  match re with
  | OpCharClass ranges =>
      match snd th with
      | (r, w) :: rest =>
          if inClass ranges r then [((fst th + w)%nat, rest)] else []
      | [] => []
      end
  | OpPlus sub => plusLoop (run sub) (S (List.length (snd th))) th
  | OpConcat sub1 sub2 => flat_map (run sub2) (run sub1 th)
  | OpBeginText => if (fst th =? 0)%nat then [th] else []
  | OpEndText => match snd th with [] => [th] | _ :: _ => [] end
  end.

(** The leftmost match: the first start offset, going right, at which
    [re] matches, with the end offset of the preferred match there. *)
Fixpoint search (re : Regexp) (pos : nat) (input : list (rune * nat))
  : option (nat * nat) :=
  match run re (pos, input) with
  | (e, _) :: _ => Some (pos, e)
  | [] =>
      match input with
      | [] => None
      | (_, w) :: rest => search re (pos + w)%nat rest
      end
  end.

(** [re.FindStringIndex(s)].  The matcher reads the text rune by rune
    with [utf8.DecodeRuneInString], which gives the runes and widths of
    [range]: an invalid byte is [runeError] and one byte wide. *)
Definition FindStringIndex (re : Regexp) (s : string) : option (nat * nat) :=
  search re 0%nat (range s).

(** [re.MatchString(s)]. *)
Definition MatchString (re : Regexp) (s : string) : bool :=
  match FindStringIndex re s with Some _ => true | None => false end.

(** [re.FindString(s)]: the text of the leftmost match, the empty
    string when there is none. *)
Definition FindString (re : Regexp) (s : string) : string :=
  match FindStringIndex re s with
  | Some (b, e) => substring b (e - b) s
  | None => ""
  end.

(** The rune of an ASCII character, for writing classes as the
    patterns do. *)
Definition ch (c : ascii) : rune := byteval c.

(** The classes [[:alpha:]], [[:digit:]] and [[:punct:]], as
    [regexp/syntax] defines them. *)
Definition posix_alpha : list (rune * rune) :=
  [(ch "A", ch "Z"); (ch "a", ch "z")].
Definition posix_digit : list (rune * rune) :=
  [(ch "0", ch "9")].
Definition posix_punct : list (rune * rune) :=
  [(ch "!", ch "/"); (ch ":", ch "@"); (ch "[", ch "`"); (ch "{", ch "~")].

(** The pattern [^[class]+$] for a class given by its ranges. *)
Definition anchoredPlus (ranges : list (rune * rune)) : Regexp :=
  OpConcat OpBeginText (OpConcat (OpPlus (OpCharClass ranges)) OpEndText).

(** Whether every rune, or some rune, of an input lies in a class. *)
Definition allIn (ranges : list (rune * rune)) (input : list (rune * nat))
  : bool :=
  forallb (fun rw => inClass ranges (fst rw)) input.

Definition someIn (ranges : list (rune * rune)) (input : list (rune * nat))
  : bool :=
  existsb (fun rw => inClass ranges (fst rw)) input.

End Regexp.
Import Regexp.

(** ** [package domain] *)

Module Domain.

(** [type UserID uint64], [type UserName string],
    [type HashedPassword []byte], [type UserRole string] and
    [type Password string]. *)
Definition UserID : Set := N.
Definition UserName : Set := string.
Definition HashedPassword : Set := list Byte.byte.
Definition UserRole : Set := string.
Definition Password : Set := string.

(** [type User struct].  The methods [ID()], [Name()],
    [HashedPassword()] and [Role()] are the projections. *)
Record User : Set := mkUser {
  id : UserID;
  name : UserName;
  hashedPassword : HashedPassword;
  role : UserRole
}.

(** [func NewUser]: the field [id] is left at its zero value. *)
Definition NewUser (name : UserName) (hashedPassword : HashedPassword)
  (role : UserRole) : option User * option error :=
  (Some {| id := 0%N;
           name := name;
           hashedPassword := hashedPassword;
           role := role |},
   None).

(** [func NewUserID]. *)
Definition NewUserID (v : N) : UserID * option error :=
  if (v =? 0)%N then (0%N, Some (errVar ErrUserIDZero))
  else (v, None).

Definition UserNameMaxLength : nat := 32.

(** [func NewUserName]. *)
Definition NewUserName (v : string) : UserName * option error :=
  if (v =? "")%string then
    ("", Some (WithStack (errVar ErrUserNameEmpty)))
  else if (UserNameMaxLength <? runeCount v)%nat then
    ("", Some (WithStack (errVar ErrUserNameTooLong)))
  else (v, None).

(** [func NewHashedPassword]; [HashedPassword(v)] is the conversion of
    a string to its bytes. *)
Definition NewHashedPassword (v : string) : HashedPassword * option error :=
  if (v =? "")%string then
    (list_byte_of_string "", Some (WithStack (errVar ErrHashedPasswordEmpty)))
  else (list_byte_of_string v, None).

Definition RoleUser : UserRole := "user".
Definition RoleAdmin : UserRole := "admin".

(** [func NewUserRole]. *)
Definition NewUserRole (v : string) : UserRole * option error :=
  if (v =? RoleUser)%string then (RoleUser, None)
  else if (v =? RoleAdmin)%string then (RoleAdmin, None)
  else ("", Some (WithStack (errVar ErrUserRoleInvalid))).

(** [func NewUserFromSource]. *)
Definition NewUserFromSource (id : N) (name hashedPassword role : string)
  : option User * option error :=
  match NewUserID id with
  | (_, Some err) => (None, Some (WithStack err))
  | (newID, None) =>
  match NewUserName name with
  | (_, Some err) => (None, Some (WithStack err))
  | (newName, None) =>
  match NewHashedPassword hashedPassword with
  | (_, Some err) => (None, Some (WithStack err))
  | (newHashedPassword, None) =>
  match NewUserRole role with
  | (_, Some err) => (None, Some (WithStack err))
  | (newRole, None) =>
      (Some {| id := newID;
               name := newName;
               hashedPassword := newHashedPassword;
               role := newRole |},
       None)
  end end end end.

Definition PasswordMinLength : nat := 8.
Definition PasswordMaxLength : nat := 16.
Definition PasswordHashCost : Z := 10.

(** [PasswordCharcters], the pattern
    [^[0-9a-zA-Z!-/:-@[-`{-~]+$], with the ranges of its class in the
    order the pattern writes them. *)
Definition PasswordCharctersClass : list (rune * rune) :=
  [(ch "0", ch "9"); (ch "a", ch "z"); (ch "A", ch "Z");
   (ch "!", ch "/"); (ch ":", ch "@"); (ch "[", ch "`"); (ch "{", ch "~")].

Definition PasswordCharcters : Regexp :=
  OpConcat OpBeginText
    (OpConcat (OpPlus (OpCharClass PasswordCharctersClass)) OpEndText).

(** [PasswordMustIncludes], the patterns [[[:alpha:]]], [[[:digit:]]]
    and [[[:punct:]]]. *)
Definition PasswordMustIncludes : list Regexp :=
  [OpCharClass posix_alpha; OpCharClass posix_digit; OpCharClass posix_punct].

(** [func NewPassword].  The loop over [PasswordMustIncludes] returns
    at the first pattern that finds nothing. *)
Definition NewPassword (v : string) : Password * option error :=
  if (v =? "")%string then
    ("", Some (WithStack (errVar ErrPasswordEmpty)))
  else if (runeCount v <? PasswordMinLength)%nat then
    ("", Some (WithStack (errVar ErrPasswordTooShort)))
  else if (PasswordMaxLength <? runeCount v)%nat then
    ("", Some (WithStack (errVar ErrPasswordTooLong)))
  else if negb (MatchString PasswordCharcters v) then
    ("", Some (WithStack (errVar ErrPasswordDoesNotFollowRule)))
  else if existsb (fun expected => (FindString expected v =? "")%string)
            PasswordMustIncludes then
    ("", Some (WithStack (errVar ErrPasswordDoesNotFollowRule)))
  else (v, None).

(** The two methods that call [golang.org/x/crypto/bcrypt].  That
    library is not part of the package: its two functions are taken as
    parameters, [GenerateFromPassword] with the state of the random
    source it reads its salt from. *)
Section Bcrypt.

Variable Rand : Type.
Variable GenerateFromPassword :
  Rand -> list Byte.byte -> Z -> list Byte.byte * option error.
Variable CompareHashAndPassword :
  list Byte.byte -> list Byte.byte -> option error.

(** [func (v Password) Hash()]: the error of the library is dropped. *)
Definition Hash (rnd : Rand) (v : Password) : HashedPassword :=
  let (hashed, _) :=
    GenerateFromPassword rnd (list_byte_of_string v) PasswordHashCost in
  hashed.

(** [func (v HashedPassword) Verify(pass Password)]. *)
Definition Verify (v : HashedPassword) (pass : Password) : option error :=
  match CompareHashAndPassword v (list_byte_of_string pass) with
  | Some err => Some (Wrap (errVar ErrHashedPasswordNotMatch) (Error err))
  | None => None
  end.

End Bcrypt.

Arguments Hash {Rand} GenerateFromPassword rnd v.

End Domain.
Import Domain.

(** ** The rules in the words of the specification

    What the constructors are compared with: the character classes and
    the order of the checks of the password policy, and the errors of
    the reconstruction path, written from the specification and not
    from the code. *)

Module Policy.

Local Open Scope Z_scope.

(** The printable ASCII characters from [!] to [~], the ASCII letters,
    the ASCII digits, and the ASCII punctuation signs, which are the
    printable characters that are neither letter nor digit. *)
Definition printable (r : rune) : Prop := 0x21 <= r <= 0x7E.
Definition alphabetic (r : rune) : Prop :=
  0x41 <= r <= 0x5A \/ 0x61 <= r <= 0x7A.
Definition digit (r : rune) : Prop := 0x30 <= r <= 0x39.
Definition punctuation (r : rune) : Prop :=
  printable r /\ ~ alphabetic r /\ ~ digit r.

(** The composition rule: only printable characters, and among them a
    letter, a digit and a punctuation sign. *)
Definition composed (v : string) : Prop :=
  Forall printable (runes v)
  /\ Exists alphabetic (runes v)
  /\ Exists digit (runes v)
  /\ Exists punctuation (runes v).

(** The same classes and rule as tests. *)
Definition printableb (r : rune) : bool := (0x21 <=? r) && (r <=? 0x7E).
Definition alphabeticb (r : rune) : bool :=
  ((0x41 <=? r) && (r <=? 0x5A)) || ((0x61 <=? r) && (r <=? 0x7A)).
Definition digitb (r : rune) : bool := (0x30 <=? r) && (r <=? 0x39).
Definition punctuationb (r : rune) : bool :=
  printableb r && negb (alphabeticb r) && negb (digitb r).

Definition composedb (v : string) : bool :=
  forallb printableb (runes v)
  && existsb alphabeticb (runes v)
  && existsb digitb (runes v)
  && existsb punctuationb (runes v).

(** The four checks of the password policy, in the order in which the
    specification says they run, each with what violates it and the
    error it gives. *)
Inductive check : Set :=
| CheckEmpty
| CheckTooShort
| CheckTooLong
| CheckComposition.

Definition checks : list check :=
  [CheckEmpty; CheckTooShort; CheckTooLong; CheckComposition].

Definition violates (c : check) (v : string) : bool :=
  match c with
  | CheckEmpty => (v =? "")%string
  | CheckTooShort => (runeCount v <? 8)%nat
  | CheckTooLong => (16 <? runeCount v)%nat
  | CheckComposition => negb (composedb v)
  end.

Definition checkError (c : check) : ErrVar :=
  match c with
  | CheckEmpty => ErrPasswordEmpty
  | CheckTooShort => ErrPasswordTooShort
  | CheckTooLong => ErrPasswordTooLong
  | CheckComposition => ErrPasswordDoesNotFollowRule
  end.

(** The first check, in that order, that a string violates. *)
Definition firstViolation (v : string) : option check :=
  find (fun c => violates c v) checks.

(** The errors that the four validators of the reconstruction path can
    return. *)
Definition sourceErrVars : list ErrVar :=
  [ErrUserIDZero; ErrUserNameEmpty; ErrUserNameTooLong;
   ErrHashedPasswordEmpty; ErrUserRoleInvalid].

End Policy.
Import Policy.

(** * Properties *)

(** ** Errors *)

Section ErrorFacts.

Lemma ErrVar_eqb_refl (e : ErrVar) : ErrVar_eqb e e = true.
Proof. destruct e; reflexivity. Qed.

Lemma ErrVar_eqb_eq (a b : ErrVar) : ErrVar_eqb a b = true <-> a = b.
Proof.
  split.
  - destruct a, b; simpl; intros H; try reflexivity; discriminate H.
  - intros ->. apply ErrVar_eqb_refl.
Qed.

(** Wrapping with a stack keeps what [errors.Is] and [errors.Cause]
    answer. *)
Lemma Is_WithStack (err : error) (target : ErrVar) :
  Is (WithStack err) target = Is err target.
Proof. reflexivity. Qed.

Lemma Cause_WithStack (err : error) : Cause (WithStack err) = Cause err.
Proof. reflexivity. Qed.

Lemma Is_Wrap (err : error) (msg : string) (target : ErrVar) :
  Is (Wrap err msg) target = Is err target.
Proof. reflexivity. Qed.

End ErrorFacts.

(** ** [UserID], [UserRole], [User] *)

(** C6.  [NewUserID] fails exactly at zero, the error then being
    [ErrUserIDZero] itself, and at every other value it succeeds and
    returns that value as the identifier. *)
Theorem NewUserID_fails_iff_zero (v : N) :
  ((exists err, snd (NewUserID v) = Some err) <-> v = 0%N)
  /\ (v = 0%N -> NewUserID v = (0%N, Some (errVar ErrUserIDZero)))
  /\ (v <> 0%N -> NewUserID v = (v, None)).
Proof.
  unfold NewUserID.
  destruct (N.eqb_spec v 0) as [E | E]; simpl.
  - repeat split; auto.
    + exists (errVar ErrUserIDZero). reflexivity.
    + intros H. contradiction.
  - repeat split; auto.
    + intros [err H]. discriminate H.
    + intros H. contradiction.
    + intros H. contradiction.
Qed.

Lemma NewUserID_fails_iff_zero_witness :
  NewUserID 0 = (0%N, Some (errVar ErrUserIDZero))
  /\ NewUserID 7 = (7%N, None)
  /\ NewUserID 18446744073709551615 = (18446744073709551615%N, None).
Proof.
  split; [| split].
  - apply (NewUserID_fails_iff_zero 0). reflexivity.
  - apply (NewUserID_fails_iff_zero 7). discriminate.
  - apply (NewUserID_fails_iff_zero 18446744073709551615). discriminate.
Defined.

(** C7.  [NewUserRole] succeeds exactly at the two strings ["user"] and
    ["admin"], returning the role it was given; at every other string,
    the empty one and those that differ in case among them, it fails
    with [ErrUserRoleInvalid]. *)
Theorem NewUserRole_succeeds_iff_enum (r : string) :
  (snd (NewUserRole r) = None <-> r = "user" \/ r = "admin")
  /\ (snd (NewUserRole r) = None -> fst (NewUserRole r) = r)
  /\ (r <> "user" -> r <> "admin" ->
      NewUserRole r = ("", Some (WithStack (errVar ErrUserRoleInvalid)))
      /\ Is (WithStack (errVar ErrUserRoleInvalid)) ErrUserRoleInvalid = true)
  /\ snd (NewUserRole "") = Some (WithStack (errVar ErrUserRoleInvalid))
  /\ snd (NewUserRole "User") = Some (WithStack (errVar ErrUserRoleInvalid))
  /\ snd (NewUserRole "ADMIN") = Some (WithStack (errVar ErrUserRoleInvalid)).
Proof.
  unfold NewUserRole, RoleUser, RoleAdmin.
  destruct (String.eqb_spec r "user") as [Eu | Eu];
    [| destruct (String.eqb_spec r "admin") as [Ea | Ea]]; simpl.
  - subst r. repeat split; auto; intros; congruence.
  - subst r. repeat split; auto; intros; congruence.
  - repeat split; auto; try discriminate.
    intros [H | H]; contradiction.
Qed.

Lemma NewUserRole_succeeds_iff_enum_witness :
  NewUserRole "Admin" = ("", Some (WithStack (errVar ErrUserRoleInvalid)))
  /\ fst (NewUserRole "admin") = "admin".
Proof.
  split.
  - apply (NewUserRole_succeeds_iff_enum "Admin"); discriminate.
  - apply (NewUserRole_succeeds_iff_enum "admin"). reflexivity.
Defined.

(** C9.  [NewUser] returns no error whatever its arguments are, looks
    at none of them, and returns a user whose identifier is the zero
    value and whose name, hashed password and role are the
    arguments. *)
Theorem NewUser_always_succeeds (n : UserName) (h : HashedPassword)
  (r : UserRole) :
  snd (NewUser n h r) = None
  /\ exists u, fst (NewUser n h r) = Some u
       /\ id u = 0%N /\ name u = n /\ hashedPassword u = h /\ role u = r.
Proof.
  split; [reflexivity |].
  eexists. split; [reflexivity |]. repeat split.
Qed.

(** ** [UserName] *)

(** C5.  [NewUserName] fails exactly when its argument is empty (with
    [ErrUserNameEmpty]) or has more than 32 code points (with
    [ErrUserNameTooLong]); when it succeeds the name returned is the
    argument itself.  The length is the number of runes and not of
    bytes: a name of 17 two-byte letters, 34 bytes long, is accepted,
    and so is one of 32 three-byte signs, 96 bytes long. *)
Theorem NewUserName_fails_iff_empty_or_long (s : string) :
  ((exists err, snd (NewUserName s) = Some err)
     <-> s = "" \/ (32 < runeCount s)%nat)
  /\ (s = "" ->
      NewUserName s = ("", Some (WithStack (errVar ErrUserNameEmpty))))
  /\ ((32 < runeCount s)%nat ->
      NewUserName s = ("", Some (WithStack (errVar ErrUserNameTooLong))))
  /\ (snd (NewUserName s) = None -> fst (NewUserName s) = s)
  /\ (let e17 := "ééééééééééééééééé" in
      String.length e17 = 34%nat /\ NewUserName e17 = (e17, None))
  /\ (let e32 := "€€€€€€€€€€€€€€€€€€€€€€€€€€€€€€€€" in
      String.length e32 = 96%nat /\ NewUserName e32 = (e32, None)).
Proof.
  unfold NewUserName, UserNameMaxLength.
  destruct (String.eqb_spec s "") as [E | E].
  - subst s. repeat split; auto.
    + exists (WithStack (errVar ErrUserNameEmpty)). reflexivity.
    + vm_compute. intros H. exfalso. lia.
  - destruct (Nat.ltb_spec 32 (runeCount s)) as [L | L].
    + repeat split; auto; try contradiction; try discriminate.
      exists (WithStack (errVar ErrUserNameTooLong)). reflexivity.
    + repeat split; auto; try contradiction; try discriminate.
      * intros [err H]. discriminate H.
      * intros [H | H]; [contradiction | lia].
      * intros H. lia.
Qed.

Lemma NewUserName_fails_iff_empty_or_long_witness :
  NewUserName "" = ("", Some (WithStack (errVar ErrUserNameEmpty)))
  /\ NewUserName "abcdefghijklmnopqrstuvwxyz0123456"
     = ("", Some (WithStack (errVar ErrUserNameTooLong)))
  /\ fst (NewUserName " alice ") = " alice ".
Proof.
  split; [| split].
  - apply (NewUserName_fails_iff_empty_or_long ""). reflexivity.
  - apply (NewUserName_fails_iff_empty_or_long
             "abcdefghijklmnopqrstuvwxyz0123456").
    vm_compute. lia.
  - apply (NewUserName_fails_iff_empty_or_long " alice "). reflexivity.
Defined.

(** ** [NewUserFromSource] *)

Section FromSource.

Lemma NewUserID_error (v : N) (err : error) :
  snd (NewUserID v) = Some err -> err = errVar ErrUserIDZero.
Proof.
  unfold NewUserID. destruct (v =? 0)%N; simpl; congruence.
Qed.

Lemma NewUserName_error (v : string) (err : error) :
  snd (NewUserName v) = Some err ->
  err = WithStack (errVar ErrUserNameEmpty)
  \/ err = WithStack (errVar ErrUserNameTooLong).
Proof.
  unfold NewUserName.
  destruct (v =? "")%string; simpl; [left; congruence |].
  destruct (UserNameMaxLength <? runeCount v)%nat; simpl;
    [right; congruence | discriminate].
Qed.

Lemma NewHashedPassword_error (v : string) (err : error) :
  snd (NewHashedPassword v) = Some err ->
  err = WithStack (errVar ErrHashedPasswordEmpty).
Proof.
  unfold NewHashedPassword. destruct (v =? "")%string; simpl; congruence.
Qed.

Lemma NewUserRole_error (v : string) (err : error) :
  snd (NewUserRole v) = Some err ->
  err = WithStack (errVar ErrUserRoleInvalid).
Proof.
  unfold NewUserRole.
  destruct (v =? RoleUser)%string; simpl; [discriminate |].
  destruct (v =? RoleAdmin)%string; simpl; [discriminate | congruence].
Qed.

Lemma NewUserID_value (v : N) :
  snd (NewUserID v) = None -> fst (NewUserID v) = v.
Proof.
  unfold NewUserID. destruct (v =? 0)%N; simpl; [discriminate | reflexivity].
Qed.

Lemma NewUserName_value (v : string) :
  snd (NewUserName v) = None -> fst (NewUserName v) = v.
Proof.
  unfold NewUserName.
  destruct (v =? "")%string; simpl; [discriminate |].
  destruct (UserNameMaxLength <? runeCount v)%nat; simpl;
    [discriminate | reflexivity].
Qed.

Lemma NewHashedPassword_value (v : string) :
  snd (NewHashedPassword v) = None ->
  fst (NewHashedPassword v) = list_byte_of_string v.
Proof.
  unfold NewHashedPassword.
  destruct (v =? "")%string; simpl; [discriminate | reflexivity].
Qed.

Lemma NewUserRole_value (v : string) :
  snd (NewUserRole v) = None -> fst (NewUserRole v) = v.
Proof.
  unfold NewUserRole, RoleUser, RoleAdmin.
  destruct (String.eqb_spec v "user") as [-> | _]; simpl; [reflexivity |].
  destruct (String.eqb_spec v "admin") as [-> | _]; simpl;
    [reflexivity | discriminate].
Qed.

End FromSource.

(** Closes one conjunct about [NewUserFromSource] once the results of
    the validators are known. *)
Ltac from_source :=
  intros;
  try congruence;
  try (match goal with
       | H : ?i = 0%N, Z : ?i = 0%N -> _ |- _ =>
           specialize (Z H); congruence
       end);
  try (match goal with
       | H : ?i <> 0%N, Z : ?i <> 0%N -> _ |- _ =>
           specialize (Z H); discriminate Z
       end);
  try (match goal with
       | H : ?n = EmptyString, Z : ?n = EmptyString -> _ |- _ =>
           specialize (Z H); try discriminate Z;
           inversion Z; subst; eexists; split; reflexivity
       end);
  try (match goal with
       | H : Some _ = Some _ |- _ =>
           inversion H; subst; eexists;
           refine (conj _ (conj _ eq_refl)); [simpl; auto 9 | reflexivity]
       end).

(** C4.  [NewUserFromSource] asks [NewUserID], [NewUserName],
    [NewHashedPassword] and [NewUserRole] in this order.  The first of
    them that fails decides the result whatever the later fields are:
    no user is returned, and the error is that validator's error
    wrapped once more with a stack.  Such an error still answers
    [errors.Is] for the error variable it comes from, which is also its
    [errors.Cause]; so an empty name behind a good identifier is still
    found to be [ErrUserNameEmpty].  A zero identifier fails with
    [ErrUserIDZero] for all other fields.  When no validator fails the
    user returned holds the four fields, the identifier among them. *)
Theorem NewUserFromSource_first_failure (i : N) (n h r : string) :
  (forall err, snd (NewUserID i) = Some err ->
     NewUserFromSource i n h r = (None, Some (WithStack err)))
  /\ (snd (NewUserID i) = None ->
      forall err, snd (NewUserName n) = Some err ->
        NewUserFromSource i n h r = (None, Some (WithStack err)))
  /\ (snd (NewUserID i) = None -> snd (NewUserName n) = None ->
      forall err, snd (NewHashedPassword h) = Some err ->
        NewUserFromSource i n h r = (None, Some (WithStack err)))
  /\ (snd (NewUserID i) = None -> snd (NewUserName n) = None ->
      snd (NewHashedPassword h) = None ->
      forall err, snd (NewUserRole r) = Some err ->
        NewUserFromSource i n h r = (None, Some (WithStack err)))
  /\ (snd (NewUserID i) = None -> snd (NewUserName n) = None ->
      snd (NewHashedPassword h) = None -> snd (NewUserRole r) = None ->
      NewUserFromSource i n h r
      = (Some {| id := i; name := n;
                 hashedPassword := list_byte_of_string h; role := r |},
         None))
  /\ (forall err, snd (NewUserFromSource i n h r) = Some err ->
        fst (NewUserFromSource i n h r) = None
        /\ exists e, In e sourceErrVars
                     /\ Is err e = true /\ Cause err = errVar e)
  /\ (i = 0%N ->
      NewUserFromSource i n h r
      = (None, Some (WithStack (errVar ErrUserIDZero))))
  /\ (i <> 0%N -> n = "" ->
      exists err, NewUserFromSource i n h r = (None, Some err)
                  /\ Is err ErrUserNameEmpty = true).
Proof.
  unfold NewUserFromSource.
  pose proof (@NewUserID_error i) as Ei.
  pose proof (@NewUserID_value i) as Vi.
  pose proof (@NewUserName_error n) as En.
  pose proof (@NewUserName_value n) as Vn.
  pose proof (@NewHashedPassword_error h) as Eh.
  pose proof (@NewHashedPassword_value h) as Vh.
  pose proof (@NewUserRole_error r) as Er.
  pose proof (@NewUserRole_value r) as Vr.
  assert (Z0 : i = 0%N -> NewUserID i = (0%N, Some (errVar ErrUserIDZero)))
    by (intros ->; reflexivity).
  assert (N0 : i <> 0%N -> snd (NewUserID i) = None)
    by (intros H; unfold NewUserID;
        destruct (N.eqb_spec i 0); [contradiction | reflexivity]).
  assert (S0 : n = "" ->
               snd (NewUserName n) = Some (WithStack (errVar ErrUserNameEmpty)))
    by (intros ->; reflexivity).
  destruct (NewUserID i) as [newID [ei |]]; simpl in *.
  { specialize (Ei _ eq_refl). subst ei. repeat split; from_source. }
  specialize (Vi eq_refl). subst newID.
  destruct (NewUserName n) as [newName [en |]]; simpl in *.
  { destruct (En _ eq_refl) as [-> | ->]; repeat split; from_source. }
  specialize (Vn eq_refl). subst newName.
  destruct (NewHashedPassword h) as [newHashed [eh |]]; simpl in *.
  { specialize (Eh _ eq_refl). subst eh. repeat split; from_source. }
  specialize (Vh eq_refl). subst newHashed.
  destruct (NewUserRole r) as [newRole [er |]]; simpl in *.
  { specialize (Er _ eq_refl). subst er. repeat split; from_source. }
  specialize (Vr eq_refl). subst newRole.
  repeat split; from_source.
Qed.

Lemma NewUserFromSource_first_failure_witness :
  NewUserFromSource 0 "" "" "root"
  = (None, Some (WithStack (errVar ErrUserIDZero)))
  /\ NewUserFromSource 3 "" "" "root"
     = (None, Some (WithStack (WithStack (errVar ErrUserNameEmpty))))
  /\ NewUserFromSource 3 "alice" "$2a$10$abc" "user"
     = (Some {| id := 3%N; name := "alice";
                hashedPassword := list_byte_of_string "$2a$10$abc";
                role := "user" |}, None).
Proof.
  split; [| split].
  - destruct (NewUserFromSource_first_failure 0 "" "" "root")
      as (_ & _ & _ & _ & _ & _ & Hzero & _).
    apply Hzero. reflexivity.
  - destruct (NewUserFromSource_first_failure 3 "" "" "root")
      as (_ & Hname & _).
    apply Hname; reflexivity.
  - destruct (NewUserFromSource_first_failure 3 "alice" "$2a$10$abc" "user")
      as (_ & _ & _ & _ & Hok & _).
    apply Hok; reflexivity.
Defined.

(** ** Runes of a string *)

Section Utf8Facts.

Local Open Scope Z_scope.

Lemma step_self (c : ascii) (t : string) :
  byteval c < runeSelf -> step (String c t) = (byteval c, 1%nat).
Proof.
  intros H. unfold step.
  destruct (Z.ltb_spec (byteval c) runeSelf) as [_ | G]; [reflexivity | lia].
Qed.

(** Splits every test of the decoder, keeping what each one says. *)
Ltac decode_cases :=
  cbv zeta;
  repeat match goal with
         | |- context [if ?b then _ else _] =>
             let E := fresh "E" in destruct b eqn:E
         end;
  cbn [fst snd].

(** A byte that is not its own rune never starts a rune below
    [runeSelf]. *)
Lemma step_high (c : ascii) (t : string) :
  runeSelf <= byteval c -> runeSelf <= fst (step (String c t)).
Proof.
  intros H. unfold step.
  destruct (Z.ltb_spec (byteval c) runeSelf) as [G | _]; [lia |].
  unfold decoderune.
  destruct t as [| c1 [| c2 [| c3 t]]]; decode_cases;
    try (unfold runeError, runeSelf; lia);
    repeat match goal with
           | E : (_ && _)%bool = true |- _ =>
               apply andb_true_iff in E; destruct E
           | E : (_ <? _) = true |- _ => apply Z.ltb_lt in E
           end;
    unfold rune1Max, rune2Max, rune3Max, runeSelf in *; lia.
Qed.

(** A rune takes at least one byte and no more than are left. *)
Lemma step_width (c : ascii) (t : string) :
  (1 <= snd (step (String c t)) <= S (String.length t))%nat.
Proof.
  unfold step, decoderune.
  destruct t as [| c1 [| c2 [| c3 t]]]; decode_cases; simpl; lia.
Qed.

Lemma rangeFrom_widths (s : string) : forall skip : nat,
  (skip <= String.length s)%nat ->
  (skip + widths (rangeFrom skip s))%nat = String.length s.
Proof.
  induction s as [| c t IH]; intros skip Hs;
    cbn [rangeFrom String.length] in *.
  - cbn [widths fold_right]. lia.
  - destruct skip as [| k].
    + pose proof (step_width c t) as W.
      remember (step (String c t)) as rw eqn:Erw.
      cbn zeta. cbn [widths fold_right].
      fold (widths (rangeFrom (snd rw - 1) t)).
      specialize (IH (snd rw - 1)%nat). lia.
    + specialize (IH k). lia.
Qed.

Lemma range_widths (s : string) : widths (range s) = String.length s.
Proof.
  unfold range. pose proof (@rangeFrom_widths s 0%nat). lia.
Qed.

Lemma rangeFrom_width_pos (s : string) : forall skip : nat,
  Forall (fun rw => (1 <= snd rw)%nat) (rangeFrom skip s).
Proof.
  induction s as [| c t IH]; intros skip; simpl.
  - constructor.
  - destruct skip as [| k]; [| apply IH].
    constructor; [apply step_width | apply IH].
Qed.

Lemma range_nil_iff (s : string) : range s = [] <-> s = "".
Proof.
  unfold range. destruct s; simpl; split; congruence.
Qed.

Lemma runeCount_le_length (s : string) :
  (runeCount s <= String.length s)%nat.
Proof.
  unfold runeCount, runes. rewrite length_map.
  rewrite <- range_widths.
  pose proof (rangeFrom_width_pos s 0) as P. fold (range s) in P.
  induction P as [| rw l H _ IH]; simpl; lia.
Qed.

(** A string all of whose runes are below [runeSelf] has one rune for
    each byte, the byte itself. *)
Lemma range_self (s : string) :
  Forall (fun r => r < runeSelf) (runes s) ->
  range s = map (fun c => (byteval c, 1%nat)) (list_ascii_of_string s).
Proof.
  unfold runes, range.
  induction s as [| c t IH]; intros H; [reflexivity |].
  cbn [rangeFrom list_ascii_of_string map] in *. cbv zeta in *.
  destruct (Z.ltb_spec (byteval c) runeSelf) as [G | G].
  - rewrite (@step_self c t G) in *. cbn [map fst snd Nat.sub] in *.
    apply Forall_inv_tail in H.
    f_equal. apply IH. assumption.
  - pose proof (@step_high c t G) as Hh.
    apply Forall_inv in H. lia.
Qed.

End Utf8Facts.

(** ** The matcher on the package's patterns *)

Section RegexpFacts.

Local Open Scope list_scope.
Local Open Scope nat_scope.

Variable ranges : list (rune * rune).

Lemma plusLoop_class_nil (fuel pos : nat) :
  plusLoop (run (OpCharClass ranges)) fuel (pos, []) = [].
Proof. destruct fuel; reflexivity. Qed.

Lemma plusLoop_class_cons (fuel pos : nat) (r : rune) (w : nat)
  (rest : list (rune * nat)) :
  plusLoop (run (OpCharClass ranges)) (S fuel) (pos, (r, w) :: rest)
  = if inClass ranges r
    then plusLoop (run (OpCharClass ranges)) fuel (pos + w, rest)
         ++ [(pos + w, rest)]
    else [].
Proof.
  cbn [plusLoop run fst snd].
  destruct (inClass ranges r); [| reflexivity].
  cbn [flat_map fst snd List.length].
  replace (List.length rest <? S (List.length rest)) with true
    by (symmetry; apply Nat.ltb_lt; lia).
  rewrite app_nil_r. reflexivity.
Qed.

(** The threads of [[class]+] that have reached the end of the text:
    there is one exactly when the input is not empty and lies in the
    class, and it has consumed all of it. *)
Lemma plus_class_end (input : list (rune * nat)) : forall fuel pos : nat,
  List.length input < fuel ->
  flat_map (run OpEndText)
           (plusLoop (run (OpCharClass ranges)) fuel (pos, input))
  = match input with
    | [] => []
    | _ :: _ => if allIn ranges input then [(pos + widths input, [])] else []
    end.
Proof.
  induction input as [| [r w] rest IH]; intros fuel pos Hf.
  - rewrite plusLoop_class_nil. reflexivity.
  - destruct fuel as [| fuel]; [inversion Hf |].
    rewrite plusLoop_class_cons.
    cbn [allIn forallb fst].
    destruct (inClass ranges r); [| reflexivity].
    rewrite flat_map_app, IH by (simpl in Hf; lia).
    cbn [andb flat_map run snd].
    destruct rest as [| rw rest'].
    + cbn [app widths fold_right snd forallb]. do 2 f_equal. lia.
    + fold (allIn ranges (rw :: rest')).
      destruct (allIn ranges (rw :: rest')); [| reflexivity].
      cbn [app].
      change (widths ((r, w) :: rw :: rest'))
        with (w + widths (rw :: rest')). do 2 f_equal. lia.
Qed.

Lemma run_anchoredPlus_start (input : list (rune * nat)) :
  run (anchoredPlus ranges) (0, input)
  = match input with
    | [] => []
    | _ :: _ => if allIn ranges input then [(widths input, [])] else []
    end.
Proof.
  unfold anchoredPlus. cbn [run fst snd Nat.eqb flat_map].
  rewrite app_nil_r, plus_class_end by lia. reflexivity.
Qed.

Lemma run_anchoredPlus_later (pos : nat) (input : list (rune * nat)) :
  run (anchoredPlus ranges) (S pos, input) = [].
Proof. reflexivity. Qed.

Lemma search_anchoredPlus_later (input : list (rune * nat)) :
  forall pos : nat, search (anchoredPlus ranges) (S pos) input = None.
Proof.
  induction input as [| [r w] rest IH]; intros pos;
    cbn [search]; rewrite run_anchoredPlus_later; [reflexivity |].
  apply IH.
Qed.

Lemma search_anchoredPlus (input : list (rune * nat)) :
  Forall (fun rw => 1 <= snd rw) input ->
  search (anchoredPlus ranges) 0 input
  = match input with
    | [] => None
    | _ :: _ => if allIn ranges input then Some (0, widths input) else None
    end.
Proof.
  intros Hw. destruct input as [| [r w] rest].
  - reflexivity.
  - cbn [search]. rewrite run_anchoredPlus_start.
    destruct (allIn ranges ((r, w) :: rest)); [reflexivity |].
    apply Forall_inv in Hw. simpl in Hw.
    destruct w as [| w]; [lia |]. apply search_anchoredPlus_later.
Qed.

(** A class on its own: the leftmost rune of the class is found. *)
Lemma search_class_none (input : list (rune * nat)) : forall pos : nat,
  someIn ranges input = false -> search (OpCharClass ranges) pos input = None.
Proof.
  induction input as [| [r w] rest IH]; intros pos H; [reflexivity |].
  cbn [someIn existsb fst] in H. apply orb_false_iff in H.
  destruct H as [Hr Hrest].
  cbn [search run fst snd]. rewrite Hr. apply IH. exact Hrest.
Qed.

Lemma search_class_some (input : list (rune * nat)) : forall pos : nat,
  Forall (fun rw => 1 <= snd rw) input ->
  someIn ranges input = true ->
  exists b e, search (OpCharClass ranges) pos input = Some (b, e)
              /\ b < e /\ e <= pos + widths input.
Proof.
  induction input as [| [r w] rest IH]; intros pos Hw H;
    [discriminate H |].
  cbn [someIn existsb fst] in H.
  pose proof (Forall_inv Hw) as Hw1. simpl in Hw1.
  apply Forall_inv_tail in Hw.
  change (widths ((r, w) :: rest)) with (w + widths rest).
  cbn [search run fst snd].
  destruct (inClass ranges r).
  - exists pos, (pos + w). repeat split; lia.
  - destruct (IH (pos + w) Hw H) as (b & e & Hs & Hbe & He).
    exists b, e. repeat split; [exact Hs | lia | lia].
Qed.

Lemma allIn_Forall (input : list (rune * nat)) :
  allIn ranges input = true
  <-> Forall (fun r => inClass ranges r = true) (map fst input).
Proof.
  unfold allIn. induction input as [| rw l IH]; cbn [forallb map].
  - split; [constructor | reflexivity].
  - rewrite andb_true_iff, IH. split.
    + intros [H1 H2]. constructor; assumption.
    + intros H. split; [exact (Forall_inv H) | exact (Forall_inv_tail H)].
Qed.

Lemma someIn_Exists (input : list (rune * nat)) :
  someIn ranges input = true
  <-> Exists (fun r => inClass ranges r = true) (map fst input).
Proof.
  unfold someIn. induction input as [| rw l IH]; cbn [existsb map].
  - split; [discriminate | intros H; inversion H].
  - rewrite orb_true_iff, IH. split.
    + intros [H | H]; [left | right]; assumption.
    + intros H. inversion H; subst; [left | right]; assumption.
Qed.

End RegexpFacts.

Lemma substring_nonempty (s : string) : forall n m : nat,
  (n < String.length s)%nat -> substring n (S m) s <> "".
Proof.
  induction s as [| c t IH]; intros n m H; simpl in H; [lia |].
  destruct n as [| n]; simpl; [discriminate |].
  apply IH. lia.
Qed.

Lemma length_list_ascii_of_string (s : string) :
  List.length (list_ascii_of_string s) = String.length s.
Proof.
  induction s as [| c t IH]; simpl; [reflexivity | rewrite IH; reflexivity].
Qed.

Lemma length_list_byte_of_string (s : string) :
  List.length (list_byte_of_string s) = String.length s.
Proof.
  unfold list_byte_of_string.
  rewrite length_map. apply length_list_ascii_of_string.
Qed.

(** [MatchString] of [^[class]+$]: the string is not empty and all its
    runes lie in the class. *)
Lemma MatchString_anchoredPlus (ranges : list (rune * rune)) (s : string) :
  MatchString (anchoredPlus ranges) s = true
  <-> s <> "" /\ Forall (fun r => inClass ranges r = true) (runes s).
Proof.
  unfold MatchString, FindStringIndex, runes.
  rewrite search_anchoredPlus by (apply (rangeFrom_width_pos s 0)).
  rewrite <- range_nil_iff, <- allIn_Forall.
  destruct (range s) as [| rw l].
  - split; [discriminate | intros [H _]; congruence].
  - destruct (allIn ranges (rw :: l)).
    + split; [intros _; split; [discriminate | reflexivity] | reflexivity].
    + split; [discriminate | intros [_ H]; discriminate H].
Qed.

(** [FindString] of a class on its own is empty exactly when no rune
    of the string lies in the class. *)
Lemma FindString_class_empty (ranges : list (rune * rune)) (s : string) :
  FindString (OpCharClass ranges) s = ""
  <-> ~ Exists (fun r => inClass ranges r = true) (runes s).
Proof.
  unfold FindString, FindStringIndex, runes.
  rewrite <- someIn_Exists.
  destruct (someIn ranges (range s)) eqn:E.
  - destruct (@search_class_some ranges (range s) 0
                (rangeFrom_width_pos s 0) E) as (b & e & Hs & Hbe & He).
    rewrite Hs. rewrite range_widths in He.
    split; [| intros H; exfalso; apply H; reflexivity].
    intros H. exfalso.
    destruct (e - b)%nat as [| m] eqn:Em; [lia |].
    apply (@substring_nonempty s b m); [lia | exact H].
  - rewrite search_class_none by exact E.
    split; [intros _; discriminate | reflexivity].
Qed.

(** ** The password policy *)

Section PasswordPolicy.

Local Open Scope Z_scope.

Ltac class_cases :=
  unfold inClass, PasswordCharctersClass, posix_alpha, posix_digit,
    posix_punct, punctuation, printable, alphabetic, digit;
  cbn [existsb fst snd];
  repeat match goal with
         | |- context [ch ?c] =>
             let n := eval vm_compute in (ch c) in change (ch c) with n
         end;
  repeat rewrite orb_true_iff; repeat rewrite andb_true_iff;
  repeat rewrite Z.leb_le; lia.

Lemma inClass_PasswordCharcters (r : rune) :
  inClass PasswordCharctersClass r = true <-> printable r.
Proof. class_cases. Qed.

Lemma inClass_alpha (r : rune) :
  inClass posix_alpha r = true <-> alphabetic r.
Proof. class_cases. Qed.

Lemma inClass_digit (r : rune) : inClass posix_digit r = true <-> digit r.
Proof. class_cases. Qed.

Lemma inClass_punct (r : rune) :
  inClass posix_punct r = true <-> punctuation r.
Proof. class_cases. Qed.

Lemma printable_dec (r : rune) : {printable r} + {~ printable r}.
Proof.
  unfold printable.
  destruct (Z_le_dec 0x21 r); destruct (Z_le_dec r 0x7E);
    (left; lia) || (right; lia).
Qed.

Lemma alphabetic_dec (r : rune) : {alphabetic r} + {~ alphabetic r}.
Proof.
  unfold alphabetic.
  destruct (Z_le_dec 0x41 r); destruct (Z_le_dec r 0x5A);
    destruct (Z_le_dec 0x61 r); destruct (Z_le_dec r 0x7A);
    (left; lia) || (right; lia).
Qed.

Lemma digit_dec (r : rune) : {digit r} + {~ digit r}.
Proof.
  unfold digit.
  destruct (Z_le_dec 0x30 r); destruct (Z_le_dec r 0x39);
    (left; lia) || (right; lia).
Qed.

Lemma punctuation_dec (r : rune) : {punctuation r} + {~ punctuation r}.
Proof.
  unfold punctuation.
  destruct (printable_dec r); destruct (alphabetic_dec r);
    destruct (digit_dec r); (left; tauto) || (right; tauto).
Qed.

Lemma Forall_iff {A : Type} (P Q : A -> Prop) (l : list A) :
  (forall x, P x <-> Q x) -> Forall P l <-> Forall Q l.
Proof.
  intros H. split; intros F; eapply Forall_impl; try exact F;
    intros x; apply H.
Qed.

Lemma Exists_iff {A : Type} (P Q : A -> Prop) (l : list A) :
  (forall x, P x <-> Q x) -> Exists P l <-> Exists Q l.
Proof.
  intros H. split; intros F; eapply Exists_impl; try exact F;
    intros x; apply H.
Qed.

Lemma forallb_Forall_iff {A : Type} (f : A -> bool) (P : A -> Prop)
  (l : list A) :
  (forall x, f x = true <-> P x) -> forallb f l = true <-> Forall P l.
Proof.
  intros H. induction l as [| a l IH]; cbn [forallb].
  - split; [constructor | reflexivity].
  - rewrite andb_true_iff, IH, H. split.
    + intros [Ha Hl]. constructor; assumption.
    + intros F. split; [exact (Forall_inv F) | exact (Forall_inv_tail F)].
Qed.

Lemma existsb_Exists_iff {A : Type} (f : A -> bool) (P : A -> Prop)
  (l : list A) :
  (forall x, f x = true <-> P x) -> existsb f l = true <-> Exists P l.
Proof.
  intros H. induction l as [| a l IH]; cbn [existsb].
  - split; [discriminate | intros X; inversion X].
  - rewrite orb_true_iff, IH, H. split.
    + intros [Ha | Hl]; [left | right]; assumption.
    + intros X. inversion X; subst; [left | right]; assumption.
Qed.

Ltac test_cases :=
  unfold punctuationb, printableb, alphabeticb, digitb,
    punctuation, printable, alphabetic, digit;
  repeat match goal with
         | |- context [(?a <=? ?b)%Z] => destruct (Z.leb_spec a b)
         end;
  cbn [andb orb negb]; split; intros;
  try reflexivity; try discriminate; lia.

Lemma printableb_iff (r : rune) : printableb r = true <-> printable r.
Proof. test_cases. Qed.

Lemma alphabeticb_iff (r : rune) : alphabeticb r = true <-> alphabetic r.
Proof. test_cases. Qed.

Lemma digitb_iff (r : rune) : digitb r = true <-> digit r.
Proof. test_cases. Qed.

Lemma punctuationb_iff (r : rune) : punctuationb r = true <-> punctuation r.
Proof. test_cases. Qed.

Lemma composedb_iff (v : string) : composedb v = true <-> composed v.
Proof.
  unfold composedb, composed.
  rewrite !andb_true_iff.
  rewrite (forallb_Forall_iff _ _ (runes v) printableb_iff).
  rewrite (existsb_Exists_iff _ _ (runes v) alphabeticb_iff).
  rewrite (existsb_Exists_iff _ _ (runes v) digitb_iff).
  rewrite (existsb_Exists_iff _ _ (runes v) punctuationb_iff).
  tauto.
Qed.

(** [PasswordCharcters.MatchString]. *)
Lemma MatchString_PasswordCharcters (v : string) :
  MatchString PasswordCharcters v = true
  <-> v <> "" /\ Forall printable (runes v).
Proof.
  change PasswordCharcters with (anchoredPlus PasswordCharctersClass).
  rewrite MatchString_anchoredPlus.
  rewrite (Forall_iff _ _ (runes v) inClass_PasswordCharcters).
  reflexivity.
Qed.

(** The loop over [PasswordMustIncludes]. *)
Lemma MustIncludes_missing (v : string) :
  existsb (fun expected => (FindString expected v =? "")%string)
          PasswordMustIncludes = true
  <-> ~ Exists alphabetic (runes v)
      \/ ~ Exists digit (runes v)
      \/ ~ Exists punctuation (runes v).
Proof.
  unfold PasswordMustIncludes. cbn [existsb].
  rewrite !orb_true_iff, !String.eqb_eq, !FindString_class_empty.
  rewrite (Exists_iff _ _ (runes v) inClass_alpha).
  rewrite (Exists_iff _ _ (runes v) inClass_digit).
  rewrite (Exists_iff _ _ (runes v) inClass_punct).
  intuition discriminate.
Qed.

(** What [NewPassword] returns, check by check. *)
Lemma NewPassword_cases (v : string) :
  (v = "" /\
   NewPassword v = ("", Some (WithStack (errVar ErrPasswordEmpty))))
  \/ (v <> "" /\ (runeCount v < 8)%nat /\
      NewPassword v = ("", Some (WithStack (errVar ErrPasswordTooShort))))
  \/ ((16 < runeCount v)%nat /\
      NewPassword v = ("", Some (WithStack (errVar ErrPasswordTooLong))))
  \/ ((8 <= runeCount v <= 16)%nat /\ ~ composed v /\
      NewPassword v
      = ("", Some (WithStack (errVar ErrPasswordDoesNotFollowRule))))
  \/ ((8 <= runeCount v <= 16)%nat /\ composed v /\
      NewPassword v = (v, None)).
Proof.
  unfold NewPassword, PasswordMinLength, PasswordMaxLength, composed.
  destruct (String.eqb_spec v "") as [E | E]; [left; auto |].
  right.
  destruct (Nat.ltb_spec (runeCount v) 8) as [L | L]; [left; auto |].
  right.
  destruct (Nat.ltb_spec 16 (runeCount v)) as [G | G]; [left; auto |].
  right.
  pose proof (MatchString_PasswordCharcters v) as M.
  pose proof (MustIncludes_missing v) as I.
  destruct (MatchString PasswordCharcters v); cbn [negb].
  - destruct (existsb _ PasswordMustIncludes).
    + left. repeat split; try lia.
      intros (_ & Ha & Hd & Hp).
      destruct I as [I _]. destruct (I eq_refl) as [N | [N | N]];
        contradiction.
    + right. repeat split; try lia.
      * apply M. reflexivity.
      * destruct (Exists_dec alphabetic (runes v) alphabetic_dec)
          as [H | H]; auto.
        destruct I as [_ I]. discriminate I. auto.
      * destruct (Exists_dec digit (runes v) digit_dec) as [H | H]; auto.
        destruct I as [_ I]. discriminate I. auto.
      * destruct (Exists_dec punctuation (runes v) punctuation_dec)
          as [H | H]; auto.
        destruct I as [_ I]. discriminate I. auto.
  - left. repeat split; try lia.
    intros (Hp & _). destruct M as [_ M]. discriminate M. auto.
Qed.

End PasswordPolicy.

(** C2.  [NewPassword] makes its checks in the order empty, too short,
    too long, composition, and the first one that the string violates
    gives the error, whatever the later checks would say: the empty
    string gives [ErrPasswordEmpty]; any other string of fewer than 8
    runes gives [ErrPasswordTooShort], and any string of more than 16
    runes gives [ErrPasswordTooLong], be their characters what they
    may; a string of 8 to 16 runes that breaks the composition rule
    gives [ErrPasswordDoesNotFollowRule]; and a string that passes all
    four checks, as ["Abcdef1!"] does, is returned as it is.  In one
    equation: the result is the error of [firstViolation], or the
    string itself when no check is violated. *)
Theorem NewPassword_check_order (v : string) :
  (v = "" ->
   NewPassword v = ("", Some (WithStack (errVar ErrPasswordEmpty))))
  /\ (v <> "" -> (runeCount v < 8)%nat ->
      NewPassword v = ("", Some (WithStack (errVar ErrPasswordTooShort))))
  /\ ((16 < runeCount v)%nat ->
      NewPassword v = ("", Some (WithStack (errVar ErrPasswordTooLong))))
  /\ ((8 <= runeCount v <= 16)%nat -> ~ composed v ->
      NewPassword v
      = ("", Some (WithStack (errVar ErrPasswordDoesNotFollowRule))))
  /\ ((8 <= runeCount v <= 16)%nat -> composed v ->
      NewPassword v = (v, None))
  /\ NewPassword v
     = match firstViolation v with
       | Some c => ("", Some (WithStack (errVar (checkError c))))
       | None => (v, None)
       end
  /\ NewPassword "Abcdef1!" = ("Abcdef1!", None).
Proof.
  assert (R0 : v = "" -> runeCount v = 0%nat) by (intros ->; reflexivity).
  assert (First : NewPassword v
                  = match firstViolation v with
                    | Some c => ("", Some (WithStack (errVar (checkError c))))
                    | None => (v, None)
                    end).
  { unfold firstViolation, checks. cbn [find violates].
    pose proof (composedb_iff v) as B.
    destruct (NewPassword_cases v)
      as [(E & H) | [(E & L & H) | [(L & H) | [(L & C & H) | (L & C & H)]]]];
      rewrite H; clear H;
      destruct (String.eqb_spec v "") as [E' | E'];
      try reflexivity; try contradiction;
      try (exfalso; specialize (R0 E'); lia);
      destruct (Nat.ltb_spec (runeCount v) 8);
      try reflexivity; try (exfalso; lia);
      destruct (Nat.ltb_spec 16 (runeCount v));
      try reflexivity; try (exfalso; lia);
      destruct (composedb v); cbn [negb]; try reflexivity.
    - exfalso. apply C. apply B. reflexivity.
    - apply B in C. discriminate C. }
  destruct (NewPassword_cases v)
    as [(E & H) | [(E & L & H) | [(L & H) | [(L & C & H) | (L & C & H)]]]];
    repeat split; intros; try assumption; try contradiction;
    try reflexivity;
    try (exfalso; lia);
    try (exfalso;
         match goal with A : v = "" |- _ => specialize (R0 A); lia end).
Qed.

Lemma NewPassword_check_order_witness :
  NewPassword "" = ("", Some (WithStack (errVar ErrPasswordEmpty)))
  /\ NewPassword "abc123!"
     = ("", Some (WithStack (errVar ErrPasswordTooShort)))
  /\ NewPassword "Abcdefghijklmno1!"
     = ("", Some (WithStack (errVar ErrPasswordTooLong))).
Proof.
  split; [| split].
  - destruct (NewPassword_check_order "") as (Hempty & _).
    apply Hempty. reflexivity.
  - destruct (NewPassword_check_order "abc123!") as (_ & Hshort & _).
    apply Hshort; [discriminate | vm_compute; lia].
  - destruct (NewPassword_check_order "Abcdefghijklmno1!")
      as (_ & _ & Hlong & _).
    apply Hlong. vm_compute. lia.
Defined.

(** C3.  On a string of 8 to 16 runes [NewPassword] fails with
    [ErrPasswordDoesNotFollowRule] exactly when the string has a
    character outside [0x21]-[0x7E], or has no letter, or no digit, or
    no punctuation sign, and accepts the string otherwise.  The pattern
    [PasswordCharcters] matches exactly the strings that are not empty
    and whose runes all lie in [0x21]-[0x7E]. *)
Theorem NewPassword_policy_violation (v : string) :
  ((8 <= runeCount v <= 16)%nat ->
   (snd (NewPassword v)
    = Some (WithStack (errVar ErrPasswordDoesNotFollowRule))
    <-> Exists (fun r => ~ printable r) (runes v)
        \/ ~ Exists alphabetic (runes v)
        \/ ~ Exists digit (runes v)
        \/ ~ Exists punctuation (runes v))
   /\ (snd (NewPassword v)
       <> Some (WithStack (errVar ErrPasswordDoesNotFollowRule))
       -> NewPassword v = (v, None)))
  /\ (MatchString PasswordCharcters v = true
      <-> v <> "" /\ Forall (fun r => (0x21 <= r <= 0x7E)%Z) (runes v)).
Proof.
  split; [| apply MatchString_PasswordCharcters].
  intros Hlen.
  assert (V : ~ composed v
              <-> Exists (fun r => ~ printable r) (runes v)
                  \/ ~ Exists alphabetic (runes v)
                  \/ ~ Exists digit (runes v)
                  \/ ~ Exists punctuation (runes v)).
  { unfold composed. split.
    - intros N.
      destruct (Forall_Exists_dec printable printable_dec (runes v))
        as [F | X]; [| left; exact X].
      right.
      destruct (Exists_dec alphabetic (runes v) alphabetic_dec)
        as [A | A]; [| left; exact A].
      right.
      destruct (Exists_dec digit (runes v) digit_dec)
        as [D | D]; [| left; exact D].
      right. intros P. apply N. auto.
    - intros [X | [A | [D | P]]] (F & A' & D' & P'); try contradiction.
      apply Exists_Forall_neg in X; [contradiction |].
      intros r. destruct (printable_dec r); auto. }
  assert (R0 : v = "" -> runeCount v = 0%nat) by (intros ->; reflexivity).
  destruct (NewPassword_cases v)
    as [(E & H) | [(E & L & H) | [(L & H) | [(L & C & H) | (L & C & H)]]]];
    try (exfalso; lia);
    try (exfalso; specialize (R0 E); lia);
    rewrite H; cbn [snd]; split.
  - split; [intros _; apply V; exact C | reflexivity].
  - intros N. contradiction N. reflexivity.
  - split; [discriminate |].
    intros X. apply V in X. contradiction.
  - reflexivity.
Qed.

Lemma NewPassword_policy_violation_witness :
  NewPassword "Secur3!ty" = ("Secur3!ty", None).
Proof.
  destruct (NewPassword_policy_violation "Secur3!ty") as [H _].
  apply H; [vm_compute; lia | discriminate].
Defined.

(** C10.  A password that [NewPassword] accepts is the string it was
    given; each of its bytes is an ASCII character from [0x21] to
    [0x7E]; so it has as many bytes as runes, between 8 and 16, and
    the byte slice handed to bcrypt is shorter than the 72 bytes that
    bcrypt takes. *)
Theorem NewPassword_accepted_ascii (v : string) (p : Password) :
  NewPassword v = (p, None) ->
  p = v
  /\ Forall (fun c => (0x21 <= byteval c <= 0x7E)%Z) (list_ascii_of_string p)
  /\ String.length p = runeCount p
  /\ (8 <= String.length p <= 16)%nat
  /\ List.length (list_byte_of_string p) = String.length p
  /\ (List.length (list_byte_of_string p) < 72)%nat.
Proof.
  intros Hok.
  destruct (NewPassword_cases v)
    as [(E & H) | [(E & L & H) | [(L & H) | [(L & C & H) | (L & C & H)]]]];
    try congruence.
  assert (p = v) by congruence. subst p. clear Hok H.
  destruct C as (F & _).
  pose proof (length_list_byte_of_string v) as B.
  assert (S : range v
              = map (fun c => (byteval c, 1%nat)) (list_ascii_of_string v)).
  { apply range_self. eapply Forall_impl; [| exact F].
    intros r. unfold printable, runeSelf. lia. }
  assert (R : runes v = map byteval (list_ascii_of_string v)).
  { unfold runes. rewrite S, map_map. reflexivity. }
  assert (N : runeCount v = String.length v).
  { unfold runeCount. rewrite R, length_map.
    apply length_list_ascii_of_string. }
  repeat split; try lia.
  rewrite R in F.
  exact (proj1 (Forall_map byteval printable (list_ascii_of_string v)) F).
Qed.

Lemma NewPassword_accepted_ascii_witness :
  String.length "Abcdef1!" = runeCount "Abcdef1!"
  /\ (List.length (list_byte_of_string "Abcdef1!") < 72)%nat.
Proof.
  destruct (@NewPassword_accepted_ascii "Abcdef1!" "Abcdef1!" eq_refl)
    as (_ & _ & Hlen & _ & _ & Hb).
  split; [exact Hlen | exact Hb].
Defined.

(** ** [Hash] and [Verify], whatever bcrypt does *)

Section BcryptFacts.

Variable Rand : Type.
Variable GenerateFromPassword :
  Rand -> list Byte.byte -> Z -> list Byte.byte * option error.
Variable CompareHashAndPassword :
  list Byte.byte -> list Byte.byte -> option error.

(** [Verify] succeeds exactly when the comparison of the library
    does. *)
Lemma Verify_nil_iff (h : HashedPassword) (p : Password) :
  Verify CompareHashAndPassword h p = None
  <-> CompareHashAndPassword h (list_byte_of_string p) = None.
Proof.
  unfold Verify.
  destruct (CompareHashAndPassword h (list_byte_of_string p));
    split; congruence.
Qed.

(** Every error of [Verify] is [ErrHashedPasswordNotMatch], with the
    text of the library's error as its message. *)
Lemma Verify_error (h : HashedPassword) (p : Password) (err : error) :
  Verify CompareHashAndPassword h p = Some err ->
  Is err ErrHashedPasswordNotMatch = true
  /\ Cause err = errVar ErrHashedPasswordNotMatch.
Proof.
  unfold Verify.
  destruct (CompareHashAndPassword h (list_byte_of_string p));
    intros H; inversion H; subst. split; reflexivity.
Qed.

(** [Hash] returns what the library returns as the hash, also when the
    library reports an error. *)
Lemma Hash_value (rnd : Rand) (p : Password) :
  Hash GenerateFromPassword rnd p
  = fst (GenerateFromPassword rnd (list_byte_of_string p) PasswordHashCost).
Proof.
  unfold Hash.
  destruct (GenerateFromPassword rnd (list_byte_of_string p)
              PasswordHashCost); reflexivity.
Qed.

End BcryptFacts.

(** * Further properties of the package *)

(** ** [NewHashedPassword] *)

Section HashedPasswordFacts.

Lemma string_of_list_byte_nil_iff (h : list Byte.byte) :
  string_of_list_byte h = "" <-> h = [].
Proof.
  destruct h as [| b t]; cbn; split; congruence.
Qed.

Lemma list_byte_of_string_nil_iff (v : string) :
  list_byte_of_string v = [] <-> v = "".
Proof.
  destruct v as [| c t]; cbn; split; congruence.
Qed.

End HashedPasswordFacts.

(** X1.  [NewHashedPassword] fails exactly at the empty string, with
    [ErrHashedPasswordEmpty] and an empty slice.  At any other string
    it checks nothing more: the slice returned is not empty, has the
    length of the string and converts back to it.  The other way
    round, a slice that is not empty comes back unchanged when its
    string is given to [NewHashedPassword]. *)
Theorem NewHashedPassword_round_trip (v : string) :
  ((exists err, snd (NewHashedPassword v) = Some err) <-> v = "")
  /\ (v = "" ->
      NewHashedPassword v
      = ([], Some (WithStack (errVar ErrHashedPasswordEmpty))))
  /\ (v <> "" ->
      snd (NewHashedPassword v) = None
      /\ fst (NewHashedPassword v) <> []
      /\ List.length (fst (NewHashedPassword v)) = String.length v
      /\ string_of_list_byte (fst (NewHashedPassword v)) = v)
  /\ (forall h : HashedPassword, h <> [] ->
      NewHashedPassword (string_of_list_byte h) = (h, None)).
Proof.
  split; [| split; [| split]].
  - unfold NewHashedPassword.
    destruct (String.eqb_spec v "") as [E | E]; cbn [snd]; split.
    + intros _. exact E.
    + intros _. eexists. reflexivity.
    + intros [err H]. discriminate H.
    + intros H. contradiction.
  - intros ->. reflexivity.
  - intros E. unfold NewHashedPassword.
    destruct (String.eqb_spec v "") as [E' | _]; [contradiction |].
    cbn [fst snd]. split; [reflexivity | split; [| split]].
    + intros H. apply list_byte_of_string_nil_iff in H. contradiction.
    + apply length_list_byte_of_string.
    + apply string_of_list_byte_of_string.
  - intros h Hh. unfold NewHashedPassword.
    destruct (String.eqb_spec (string_of_list_byte h) "") as [E | _].
    + apply string_of_list_byte_nil_iff in E. contradiction.
    + rewrite list_byte_of_string_of_list_byte. reflexivity.
Qed.

Lemma NewHashedPassword_round_trip_witness :
  NewHashedPassword "" = ([], Some (WithStack (errVar ErrHashedPasswordEmpty)))
  /\ string_of_list_byte (fst (NewHashedPassword "not a hash")) = "not a hash"
  /\ NewHashedPassword (string_of_list_byte [Byte.x24; Byte.x32])
     = ([Byte.x24; Byte.x32], None).
Proof.
  split; [| split].
  - destruct (NewHashedPassword_round_trip "") as (_ & H & _).
    apply H. reflexivity.
  - destruct (NewHashedPassword_round_trip "not a hash") as (_ & _ & H & _).
    apply H. discriminate.
  - destruct (NewHashedPassword_round_trip "") as (_ & _ & _ & H).
    apply H. discriminate.
Defined.

(** ** [NewUserFromSource] on the raw fields *)

Section FromSourceFields.

(** What [NewUserFromSource] returns, told from the raw fields. *)
Lemma NewUserFromSource_cases (i : N) (n h r : string) :
  (i = 0%N /\
   NewUserFromSource i n h r
   = (None, Some (WithStack (errVar ErrUserIDZero))))
  \/ (i <> 0%N /\ n = "" /\
      NewUserFromSource i n h r
      = (None, Some (WithStack (WithStack (errVar ErrUserNameEmpty)))))
  \/ (i <> 0%N /\ (32 < runeCount n)%nat /\
      NewUserFromSource i n h r
      = (None, Some (WithStack (WithStack (errVar ErrUserNameTooLong)))))
  \/ (i <> 0%N /\ n <> "" /\ (runeCount n <= 32)%nat /\ h = "" /\
      NewUserFromSource i n h r
      = (None, Some (WithStack (WithStack (errVar ErrHashedPasswordEmpty)))))
  \/ (i <> 0%N /\ n <> "" /\ (runeCount n <= 32)%nat /\ h <> "" /\
      r <> "user" /\ r <> "admin" /\
      NewUserFromSource i n h r
      = (None, Some (WithStack (WithStack (errVar ErrUserRoleInvalid)))))
  \/ (i <> 0%N /\ n <> "" /\ (runeCount n <= 32)%nat /\ h <> "" /\
      (r = "user" \/ r = "admin") /\
      NewUserFromSource i n h r
      = (Some {| id := i; name := n;
                 hashedPassword := list_byte_of_string h; role := r |},
         None)).
Proof.
  unfold NewUserFromSource, NewUserID.
  destruct (N.eqb_spec i 0) as [Ei | Ei]; [left; auto |].
  right. unfold NewUserName, UserNameMaxLength.
  destruct (String.eqb_spec n "") as [En | En]; [left; auto |].
  right.
  destruct (Nat.ltb_spec 32 (runeCount n)) as [Ln | Ln]; [left; auto |].
  right. unfold NewHashedPassword.
  destruct (String.eqb_spec h "") as [Eh | Eh]; [left; auto |].
  right. unfold NewUserRole, RoleUser, RoleAdmin.
  destruct (String.eqb_spec r "user") as [Eu | Eu].
  { right. subst r. repeat split; auto. }
  destruct (String.eqb_spec r "admin") as [Ea | Ea].
  { right. subst r. repeat split; auto. }
  left. repeat split; auto.
Qed.

Lemma runeCount_empty (n : string) : n = "" -> runeCount n = 0%nat.
Proof. intros ->. reflexivity. Qed.

End FromSourceFields.

(** X2.  [NewUserFromSource] returns a user exactly when the identifier
    is not zero, the name is not empty and has at most 32 runes, the
    hashed password is not empty and the role is ["user"] or
    ["admin"].  It returns either a user or an error, never both and
    never neither. *)
Theorem NewUserFromSource_succeeds_iff (i : N) (n h r : string) :
  ((exists u, NewUserFromSource i n h r = (Some u, None))
   <-> i <> 0%N /\ n <> "" /\ (runeCount n <= 32)%nat /\ h <> ""
       /\ (r = "user" \/ r = "admin"))
  /\ (fst (NewUserFromSource i n h r) = None
      <-> snd (NewUserFromSource i n h r) <> None).
Proof.
  pose proof (@runeCount_empty n) as R0.
  destruct (NewUserFromSource_cases i n h r)
    as [(Ei & H) | [(Ei & En & H) | [(Ei & Ln & H)
       | [(Ei & En & Ln & Eh & H) | [(Ei & En & Ln & Eh & Eu & Ea & H)
       | (Ei & En & Ln & Eh & Er & H)]]]]];
    rewrite H; cbn [fst snd]; (split; [split |]).
  all: try (intros [u Hu]; discriminate Hu).
  all: try (intros (A1 & A2 & A3 & A4 & A5); exfalso;
            first [ contradiction | specialize (R0 En); lia | lia
                  | destruct A5; contradiction ]).
  all: try (split; [intros _; discriminate | reflexivity]).
  - intros _. repeat split; assumption.
  - intros _. eexists. reflexivity.
  - split; [discriminate | intros N; contradiction N; reflexivity].
Qed.

(** X3.  An error of [NewUserFromSource] tells which field was the
    first bad one: it answers [errors.Is] for [ErrUserIDZero] exactly
    when the identifier is zero, for [ErrUserNameEmpty] or
    [ErrUserNameTooLong] exactly when the identifier is good and the
    name is empty or longer than 32 runes, for [ErrHashedPasswordEmpty]
    exactly when identifier and name are good and the hashed password
    is empty, and for [ErrUserRoleInvalid] exactly when only the role
    is bad.  Its [errors.Cause] is one of these five variables, and
    its text is the text of that variable, the stacks adding none. *)
Theorem NewUserFromSource_error_diagnosis (i : N) (n h r : string)
  (err : error) :
  snd (NewUserFromSource i n h r) = Some err ->
  (Is err ErrUserIDZero = true <-> i = 0%N)
  /\ (Is err ErrUserNameEmpty = true <-> i <> 0%N /\ n = "")
  /\ (Is err ErrUserNameTooLong = true
      <-> i <> 0%N /\ (32 < runeCount n)%nat)
  /\ (Is err ErrHashedPasswordEmpty = true
      <-> i <> 0%N /\ n <> "" /\ (runeCount n <= 32)%nat /\ h = "")
  /\ (Is err ErrUserRoleInvalid = true
      <-> i <> 0%N /\ n <> "" /\ (runeCount n <= 32)%nat /\ h <> ""
          /\ r <> "user" /\ r <> "admin")
  /\ (exists e, In e sourceErrVars
                /\ Cause err = errVar e /\ Error err = message e).
Proof.
  pose proof (@runeCount_empty n) as R0.
  destruct (NewUserFromSource_cases i n h r)
    as [(Ei & H) | [(Ei & En & H) | [(Ei & Ln & H)
       | [(Ei & En & Ln & Eh & H) | [(Ei & En & Ln & Eh & Eu & Ea & H)
       | (Ei & En & Ln & Eh & Er & H)]]]]];
    rewrite H; cbn [snd]; intros Herr; inversion Herr; subst err;
    cbn [Is WithStack ErrVar_eqb].
  all: repeat match goal with
              | |- _ /\ _ => split
              | |- _ <-> _ => split
              | |- exists _ : ErrVar, _ =>
                  eexists;
                  refine (conj _ (conj eq_refl _));
                  [unfold sourceErrVars; cbn [In]; tauto | reflexivity]
              end.
  all: try (intros Ht; discriminate Ht).
  all: try (intros _; reflexivity).
  all: try (intros _; repeat split; assumption).
  all: intros Hc; exfalso; decompose [and] Hc;
    try match goal with
        | A : _ = EmptyString |- _ => pose proof (R0 A)
        end;
    first [contradiction | lia].
Qed.

Lemma NewUserFromSource_error_diagnosis_witness :
  Is (WithStack (WithStack (errVar ErrUserRoleInvalid))) ErrHashedPasswordEmpty
  = true
  <-> 5%N <> 0%N /\ "bob" <> "" /\ (runeCount "bob" <= 32)%nat /\ "x" = "".
Proof.
  destruct (@NewUserFromSource_error_diagnosis 5 "bob" "x" "root"
              (WithStack (WithStack (errVar ErrUserRoleInvalid))) eq_refl)
    as (_ & _ & _ & H & _).
  exact H.
Defined.

(** X4.  A user that [NewUserFromSource] returns holds the four raw
    fields, read back by its accessors, and is valid: its identifier
    is not zero, its name is not empty and has at most 32 runes, its
    hashed password is not empty and its role is [RoleUser] or
    [RoleAdmin].  Reconstructing from what the accessors return gives
    the same user again. *)
Theorem NewUserFromSource_user_valid (i : N) (n h r : string) (u : User) :
  NewUserFromSource i n h r = (Some u, None) ->
  (id u = i /\ name u = n
   /\ string_of_list_byte (hashedPassword u) = h /\ role u = r)
  /\ (id u <> 0%N /\ name u <> "" /\ (runeCount (name u) <= 32)%nat
      /\ hashedPassword u <> []
      /\ (role u = RoleUser \/ role u = RoleAdmin))
  /\ NewUserFromSource (id u) (name u)
       (string_of_list_byte (hashedPassword u)) (role u)
     = (Some u, None).
Proof.
  intros Hu.
  destruct (NewUserFromSource_cases i n h r)
    as [(Ei & H) | [(Ei & En & H) | [(Ei & Ln & H)
       | [(Ei & En & Ln & Eh & H) | [(Ei & En & Ln & Eh & Eu & Ea & H)
       | (Ei & En & Ln & Eh & Er & H)]]]]];
    rewrite H in Hu; try discriminate Hu.
  inversion Hu; subst u; clear Hu. cbn [id name hashedPassword role].
  rewrite string_of_list_byte_of_string.
  split; [| split].
  - repeat split.
  - repeat split; try assumption.
    intros E. apply list_byte_of_string_nil_iff in E. contradiction.
  - exact H.
Qed.

Lemma NewUserFromSource_user_valid_witness :
  NewUserFromSource 9 "carol" "$2a$10$N9qo8uLOickgx2ZMRZoMye" "admin"
  = (Some {| id := 9%N; name := "carol";
             hashedPassword :=
               list_byte_of_string "$2a$10$N9qo8uLOickgx2ZMRZoMye";
             role := "admin" |}, None).
Proof.
  destruct (@NewUserFromSource_user_valid
              9 "carol" "$2a$10$N9qo8uLOickgx2ZMRZoMye" "admin"
              {| id := 9%N; name := "carol";
                 hashedPassword :=
                   list_byte_of_string "$2a$10$N9qo8uLOickgx2ZMRZoMye";
                 role := "admin" |} eq_refl)
    as (_ & _ & H).
  exact H.
Defined.

(** X5.  A user made by [NewUser] and a user made by
    [NewUserFromSource] are never the same: the first has the
    identifier zero and the second never has.  So the fields of a
    fresh user, read back by its accessors, are refused by
    [NewUserFromSource] with [ErrUserIDZero] until an identifier is
    assigned. *)
Theorem NewUser_not_from_source (n : UserName) (h : HashedPassword)
  (r : UserRole) (i : N) (n' h' r' : string) (u u' : User) :
  NewUser n h r = (Some u, None) ->
  NewUserFromSource i n' h' r' = (Some u', None) ->
  u <> u'
  /\ NewUserFromSource (id u) (name u)
       (string_of_list_byte (hashedPassword u)) (role u)
     = (None, Some (WithStack (errVar ErrUserIDZero))).
Proof.
  intros Hu Hu'.
  unfold NewUser in Hu. inversion Hu; subst u; clear Hu.
  cbn [id name hashedPassword role].
  split; [| reflexivity].
  intros E.
  destruct (NewUserFromSource_cases i n' h' r')
    as [(Ei & H) | [(Ei & En & H) | [(Ei & Ln & H)
       | [(Ei & En & Ln & Eh & H) | [(Ei & En & Ln & Eh & Eu & Ea & H)
       | (Ei & En & Ln & Eh & Er & H)]]]]];
    rewrite H in Hu'; try discriminate Hu'.
  subst u'. inversion Hu'. congruence.
Qed.

Lemma NewUser_not_from_source_witness :
  {| id := 0%N; name := "dave";
     hashedPassword := list_byte_of_string "hash"; role := "user" |}
  <> {| id := 4%N; name := "dave";
        hashedPassword := list_byte_of_string "hash"; role := "user" |}.
Proof.
  destruct (@NewUser_not_from_source
              "dave" (list_byte_of_string "hash") "user"
              4 "dave" "hash" "user" _ _ eq_refl eq_refl) as (H & _).
  exact H.
Defined.

(** ** Bytes and runes of accepted names and passwords *)

Section BytesAndRunes.

Local Open Scope Z_scope.

(** No rune takes more than four bytes. *)
Lemma step_width_max (c : ascii) (t : string) :
  (snd (step (String c t)) <= 4)%nat.
Proof.
  unfold step, decoderune. cbv zeta.
  destruct t as [| c1 [| c2 [| c3 t]]];
    repeat match goal with
           | |- context [if ?b then _ else _] => destruct b
           end;
    cbn [snd]; lia.
Qed.

Lemma rangeFrom_widths_max (s : string) : forall skip : nat,
  (widths (rangeFrom skip s) <= 4 * List.length (rangeFrom skip s))%nat.
Proof.
  induction s as [| c t IH]; intros skip; cbn [rangeFrom].
  - cbn. lia.
  - destruct skip as [| k]; [| apply IH].
    pose proof (step_width_max c t) as W.
    remember (step (String c t)) as rw eqn:Erw.
    cbn zeta. cbn [widths fold_right List.length].
    fold (widths (rangeFrom (snd rw - 1) t)).
    specialize (IH (snd rw - 1)%nat). lia.
Qed.

Lemma length_le_runeCount (s : string) :
  (String.length s <= 4 * runeCount s)%nat.
Proof.
  unfold runeCount, runes. rewrite length_map, <- range_widths.
  apply rangeFrom_widths_max.
Qed.

(** A string of bytes below [runeSelf] has its bytes as runes, and the
    other way round. *)
Lemma range_bytes (s : string) :
  Forall (fun c => byteval c < runeSelf) (list_ascii_of_string s) ->
  range s = map (fun c => (byteval c, 1%nat)) (list_ascii_of_string s).
Proof.
  unfold range.
  induction s as [| c t IH]; intros H; [reflexivity |].
  cbn [rangeFrom list_ascii_of_string map] in *. cbv zeta.
  rewrite (@step_self c t (Forall_inv H)). cbn [snd Nat.sub].
  f_equal. apply IH. exact (Forall_inv_tail H).
Qed.

Lemma runes_bytes (s : string) :
  Forall (fun c => byteval c < runeSelf) (list_ascii_of_string s) ->
  runes s = map byteval (list_ascii_of_string s).
Proof.
  intros H. unfold runes. rewrite (range_bytes s H), map_map. reflexivity.
Qed.

Lemma runes_self (s : string) :
  Forall (fun r => r < runeSelf) (runes s) ->
  runes s = map byteval (list_ascii_of_string s).
Proof.
  intros H. unfold runes. rewrite (range_self s H), map_map. reflexivity.
Qed.

Lemma printable_self (l : list rune) :
  Forall printable l -> Forall (fun r => r < runeSelf) l.
Proof.
  apply Forall_impl. intros r. unfold printable, runeSelf. lia.
Qed.

End BytesAndRunes.

(** X6.  A name that [NewUserName] accepts has between 1 and 128
    bytes, and every string of 1 to 32 bytes is accepted, whatever its
    bytes are.  The upper bound is reached: 32 runes of four bytes
    each are accepted. *)
Theorem NewUserName_byte_bounds (s : string) :
  (snd (NewUserName s) = None -> (1 <= String.length s <= 128)%nat)
  /\ ((1 <= String.length s <= 32)%nat -> NewUserName s = (s, None))
  /\ (let f32 := "😀😀😀😀😀😀😀😀😀😀😀😀😀😀😀😀😀😀😀😀😀😀😀😀😀😀😀😀😀😀😀😀" in
      String.length f32 = 128%nat /\ NewUserName f32 = (f32, None)).
Proof.
  pose proof (runeCount_le_length s) as Lo.
  pose proof (length_le_runeCount s) as Hi.
  unfold NewUserName, UserNameMaxLength.
  destruct (String.eqb_spec s "") as [E | E].
  - subst s. split; [| split].
    + intros H. discriminate H.
    + cbn. lia.
    + split; reflexivity.
  - assert (1 <= String.length s)%nat
      by (destruct s; [contradiction | cbn; lia]).
    destruct (Nat.ltb_spec 32 (runeCount s)) as [L | L];
      (split; [| split]).
    + intros H'. discriminate H'.
    + lia.
    + split; reflexivity.
    + intros _. lia.
    + reflexivity.
    + split; reflexivity.
Qed.

Lemma NewUserName_byte_bounds_witness :
  (1 <= String.length "zoë" <= 128)%nat
  /\ NewUserName "zoë" = ("zoë", None).
Proof.
  destruct (NewUserName_byte_bounds "zoë") as (Hb & Hs & _).
  split; [apply Hb; reflexivity | apply Hs; cbn; lia].
Defined.

(** X7.  [NewPassword] can be told from the bytes alone: it accepts a
    string exactly when the string has 8 to 16 bytes, each of them
    from [0x21] to [0x7E], and among them a letter, a digit and a
    punctuation sign.  A string with any other byte, be it a space, a
    control character or part of a longer rune, is refused. *)
Theorem NewPassword_bytewise (v : string) :
  NewPassword v = (v, None)
  <-> (8 <= String.length v <= 16)%nat
      /\ Forall printable (map byteval (list_ascii_of_string v))
      /\ Exists alphabetic (map byteval (list_ascii_of_string v))
      /\ Exists digit (map byteval (list_ascii_of_string v))
      /\ Exists punctuation (map byteval (list_ascii_of_string v)).
Proof.
  assert (N : runes v = map byteval (list_ascii_of_string v) ->
              runeCount v = String.length v).
  { intros R. unfold runeCount. rewrite R, length_map.
    apply length_list_ascii_of_string. }
  split.
  - intros Hok.
    destruct (NewPassword_cases v)
      as [(E & H) | [(E & L & H) | [(L & H) | [(L & C & H) | (L & C & H)]]]];
      rewrite H in Hok; try discriminate Hok.
    destruct C as (F & A & D & P).
    pose proof (runes_self v (printable_self _ F)) as R.
    rewrite <- R. rewrite <- (N R). auto.
  - intros (L & F & A & D & P).
    assert (R : runes v = map byteval (list_ascii_of_string v)).
    { apply runes_bytes. apply printable_self in F.
      exact (proj1 (Forall_map byteval _ (list_ascii_of_string v)) F). }
    rewrite <- R in F, A, D, P. rewrite <- (N R) in L.
    pose proof (@runeCount_empty v) as R0.
    destruct (NewPassword_cases v)
      as [(E & H) | [(E & L' & H) | [(L' & H) | [(L' & C & H) | (L' & C & H)]]]];
      try (exfalso; lia);
      try (exfalso; specialize (R0 E); lia).
    + exfalso. apply C. unfold composed. auto.
    + exact H.
Qed.

Lemma NewPassword_bytewise_witness :
  (8 <= String.length "Secur3!ty" <= 16)%nat
  /\ Forall printable (map byteval (list_ascii_of_string "Secur3!ty")).
Proof.
  destruct (proj1 (NewPassword_bytewise "Secur3!ty") eq_refl)
    as (Hl & Hp & _).
  split; [exact Hl | exact Hp].
Defined.

(** ** [Verify] *)

Section VerifyFacts.

Variable CompareHashAndPassword :
  list Byte.byte -> list Byte.byte -> option error.

(** X8.  [Verify] returns no error exactly when the comparison of the
    library returns none.  Whatever error the library returns, a
    mismatch or a stored hash it cannot read, [Verify] reports
    [ErrHashedPasswordNotMatch] and no other error variable, with the
    text of the library's error put before the text of
    [ErrHashedPasswordNotMatch]. *)
Theorem Verify_reports_not_match (h : HashedPassword) (p : Password) :
  match CompareHashAndPassword h (list_byte_of_string p) with
  | None => Verify CompareHashAndPassword h p = None
  | Some e0 =>
      exists err,
        Verify CompareHashAndPassword h p = Some err
        /\ Cause err = errVar ErrHashedPasswordNotMatch
        /\ (forall t, Is err t = true <-> t = ErrHashedPasswordNotMatch)
        /\ Error err = Error e0 ++ ": hashed password: not match"
  end.
Proof.
  unfold Verify.
  destruct (CompareHashAndPassword h (list_byte_of_string p)) as [e0 |];
    [| reflexivity].
  eexists. split; [reflexivity |]. split; [reflexivity |]. split.
  - intros t. cbn [Is Wrap]. rewrite ErrVar_eqb_eq.
    split; intros H; symmetry; exact H.
  - reflexivity.
Qed.

End VerifyFacts.
